(** * jackd: a beanstalkd client (src/index.js)

    A shallow embedding of the command catalog, the response decoder
    [processIncomingData] and the error classifier [validateAgainstErrors],
    followed by the properties the specification states about them.

    The socket is set to the 'ascii' encoding, so every chunk and every
    command is a string of one-byte characters: [string] of the Standard
    Library, whose [length] is at once the character and the byte count. *)

From Stdlib Require Import String Ascii List Bool Arith ZArith Lia DecimalString.
Import ListNotations.
Open Scope string_scope.

(** ** JavaScript values that reach the client *)

Module Js.

(** The arguments callers pass.  Numbers are the integers; an object is
    seen through the two observations the client makes of it:
    [JSON.stringify] and the conversion a template literal applies
    ([toString]). *)
Inductive value :=
| Undefined
| Num (n : Z)
| Str (s : string)
| Obj (json tostr : string).

(** A plain object literal: its [toString] is the fixed tag. *)
Definition plain (json : string) : value := Obj json "[object Object]".

(** [ToBoolean] *)
Definition truthy (v : value) : bool :=
  match v with
  | Undefined => false
  | Num n => negb (Z.eqb n 0)
  | Str s => negb (String.eqb s "")
  | Obj _ _ => true
  end.

(** [a || b] *)
Definition or (a b : value) : value := if truthy a then a else b.

(** [typeof v === 'object'] *)
Definition is_object (v : value) : bool :=
  match v with Obj _ _ => true | _ => false end.

(** [JSON.stringify(v)] of an object. *)
Definition JSON_stringify (v : value) : value :=
  match v with
  | Obj json _ => Str json
  | _ => v
  end.

(** Decimal text of an integer, as [String(n)] prints it. *)
Definition of_Z (n : Z) : string := NilZero.string_of_int (Z.to_int n).

(** The conversion inside a template literal. *)
Definition to_string (v : value) : string :=
  match v with
  | Undefined => "undefined"
  | Num n => of_Z n
  | Str s => s
  | Obj _ tostr => tostr
  end.

(** [s.startsWith(p)] *)
Definition startsWith (s p : string) : bool := String.prefix p s.

(** [s.endsWith(suffix)] *)
Definition endsWith (s suffix : string) : bool :=
  String.eqb
    (String.substring (String.length s - String.length suffix)
       (String.length suffix) s)
    suffix.

(** [s.indexOf(needle)], [None] standing for -1. *)
Fixpoint indexOf (needle s : string) : option nat :=
  if String.prefix needle s then Some 0
  else match s with
       | EmptyString => None
       | String _ s' => option_map S (indexOf needle s')
       end.

(** [s.substring(from, to)] for [from <= to <= s.length]. *)
Definition substring (from to : nat) (s : string) : string :=
  String.substring from (to - from) s.

(** [s.split(sep)] for a separator of one character. *)
Fixpoint split (sep : ascii) (s : string) : list string :=
  match s with
  | EmptyString => [EmptyString]
  | String c s' =>
      if Ascii.eqb c sep then EmptyString :: split sep s'
      else match split sep s' with
           | [] => [String c EmptyString]
           | t :: ts => String c t :: ts
           end
  end.

End Js.

(** ** Protocol constants *)

Definition CR : ascii := ascii_of_nat 13.
Definition LF : ascii := ascii_of_nat 10.
Definition CRLF : string := String CR (String LF EmptyString).

Definition RESERVED := "RESERVED".
Definition INSERTED := "INSERTED".
Definition USING := "USING".
Definition TOUCHED := "TOUCHED".
Definition DELETED := "DELETED".
Definition BURIED := "BURIED".
Definition RELEASED := "RELEASED".
Definition NOT_FOUND := "NOT_FOUND".
Definition OUT_OF_MEMORY := "OUT_OF_MEMORY".
Definition INTERNAL_ERROR := "INTERNAL_ERROR".
Definition BAD_FORMAT := "BAD_FORMAT".
Definition UNKNOWN_COMMAND := "UNKNOWN_COMMAND".
Definition EXPECTED_CRLF := "EXPECTED_CRLF".
Definition JOB_TOO_BIG := "JOB_TOO_BIG".
Definition DRAINING := "DRAINING".
Definition TIMED_OUT := "TIMED_OUT".
Definition DEADLINE_SOON := "DEADLINE_SOON".
Definition FOUND := "FOUND".
Definition WATCHING := "WATCHING".
Definition NOT_IGNORED := "NOT_IGNORED".
Definition KICKED := "KICKED".
Definition PAUSED := "PAUSED".

(** ** Results, errors and continuations *)

(** The closures response handlers return as their deferred second
    phase: the one of [reserveResponseHandler] and [peek], which captures
    the job id read off the status line, and the identity of
    [executeMultiPartCommand]. *)
Inductive continuation :=
| KJob (id : option string)
| KDeferred.

(** What a handler returns and a command resolves with.  [split(' ')[1]]
    is [undefined] when the line has a single token, hence the optional
    id. *)
Inductive result :=
| RUndefined
| RString (s : string)
| RJob (id : option string) (payload : string)
| RFunction (k : continuation).

Inductive error :=
| AssertionError
| TypeError
| ProtocolError (response : string)
| UnexpectedResponse (response : string).

(** A call that returns or throws. *)
Inductive completion (A : Type) :=
| Return (a : A)
| Throw (e : error).
Arguments Return {A} a.
Arguments Throw {A} e.

Definition bind {A B} (m : completion A) (f : A -> completion B) : completion B :=
  match m with
  | Return a => f a
  | Throw e => Throw e
  end.

Notation "x <- m ;; k" := (bind m (fun x => k))
  (at level 61, m at next level, right associativity).
Notation "m ;;; k" := (bind m (fun _ => k))
  (at level 61, right associativity).

(** [assert(v)] *)
Definition assert (v : Js.value) : completion unit :=
  if Js.truthy v then Return tt else Throw AssertionError.

(** The [errors] array of [validateAgainstErrors], in its order. *)
Definition shared_errors : list string :=
  [OUT_OF_MEMORY; INTERNAL_ERROR; BAD_FORMAT; TIMED_OUT; UNKNOWN_COMMAND].

(** [validateAgainstErrors(response, additionalErrors = [])] *)
Definition validateAgainstErrors (response : string) (additionalErrors : list string)
  : completion unit :=
  if existsb (fun e => Js.startsWith response e) (shared_errors ++ additionalErrors)
  then Throw (ProtocolError response)
  else Return tt.

(** [invalidResponse(response)] *)
Definition invalidResponse {A} (response : string) : completion A :=
  Throw (UnexpectedResponse response).

(** [const [, x] = response.split(' ')] *)
Definition second_token (response : string) : option string :=
  nth_error (Js.split " " response) 1.

(** A handler that returns the second token as it is. *)
Definition return_token (response : string) : result :=
  match second_token response with
  | Some t => RString t
  | None => RUndefined
  end.

(** ** The command catalog *)

Inductive command :=
| executeCommand
| executeMultiPartCommand
| pauseTube
| put
| use
| reserve
| reserveWithTimeout
| delete
| release
| bury
| touch
| watch
| ignore
| peek
| kick
| kickJob
| getCurrentTube.

(** The destructured options object, [{}] when the caller passes none:
    an absent field reads [Undefined]. *)
Record options := { priority : Js.value; delay : Js.value; ttr : Js.value }.

Definition no_options : options :=
  {| priority := Js.Undefined; delay := Js.Undefined; ttr := Js.Undefined |}.

(** [Buffer.from(string, 'ascii').length]: one byte per character; a
    value that is not a string is refused. *)
Definition Buffer_from_length (v : Js.value) : completion nat :=
  match v with
  | Js.Str s => Return (String.length s)
  | _ => Throw TypeError
  end.

(** [${v}] and the literal [0] of the templates. *)
Definition text (v : Js.value) : string := Js.to_string v.
Definition zero : Js.value := Js.Num 0.

(** The first function given to [createCommandHandler]: the bytes to
    write for a call with first argument [arg] and options [o]. *)
Definition commandFunction (c : command) (arg : Js.value) (o : options)
  : completion Js.value :=
  match c with
  | executeCommand | executeMultiPartCommand => Return arg
  | pauseTube =>
      Return (Js.Str ("pause-tube " ++ text arg ++ " " ++ text (Js.or (delay o) zero)))
  | put =>
      assert arg ;;;
      let string := if Js.is_object arg then Js.JSON_stringify arg else arg in
      n <- Buffer_from_length string ;;
      Return (Js.Str ("put " ++ text (Js.or (priority o) zero) ++ " "
                      ++ text (Js.or (delay o) zero) ++ " "
                      ++ text (Js.or (ttr o) (Js.Num 60)) ++ " "
                      ++ text (Js.Num (Z.of_nat n)) ++ CRLF
                      ++ text arg ++ CRLF))
  | use => assert arg ;;; Return (Js.Str ("use " ++ text arg ++ CRLF))
  | reserve => Return (Js.Str ("reserve" ++ CRLF))
  | reserveWithTimeout =>
      Return (Js.Str ("reserve-with-timeout " ++ text arg ++ CRLF))
  | delete => assert arg ;;; Return (Js.Str ("delete " ++ text arg ++ CRLF))
  | release =>
      assert arg ;;;
      Return (Js.Str ("release " ++ text arg ++ " "
                      ++ text (Js.or (priority o) zero) ++ " "
                      ++ text (Js.or (delay o) zero) ++ CRLF))
  | bury =>
      assert arg ;;;
      Return (Js.Str ("bury " ++ text arg ++ " "
                      ++ text (Js.or (priority o) zero) ++ CRLF))
  | touch => assert arg ;;; Return (Js.Str ("touch " ++ text arg ++ CRLF))
  | watch => assert arg ;;; Return (Js.Str ("watch " ++ text arg ++ CRLF))
  | ignore => assert arg ;;; Return (Js.Str ("ignore " ++ text arg ++ CRLF))
  | peek => assert arg ;;; Return (Js.Str ("peek " ++ text arg ++ CRLF))
  | kick => assert arg ;;; Return (Js.Str ("kick " ++ text arg ++ CRLF))
  | kickJob => assert arg ;;; Return (Js.Str ("kick-job " ++ text arg ++ CRLF))
  | getCurrentTube => Return (Js.Str ("list-tube-used" ++ CRLF))
  end.

(** [reserveResponseHandler] *)
Definition reserveResponseHandler (response : string) : completion result :=
  validateAgainstErrors response [DEADLINE_SOON; TIMED_OUT] ;;;
  if Js.startsWith response RESERVED
  then Return (RFunction (KJob (second_token response)))
  else invalidResponse response.

(** Handlers of the shape [if (response === TOKEN) return]. *)
Definition expect_exactly (token : string) (additionalErrors : list string)
  (response : string) : completion result :=
  validateAgainstErrors response additionalErrors ;;;
  if String.eqb response token then Return RUndefined
  else invalidResponse response.

(** Handlers of the shape [if (response.startsWith(TOKEN)) return
    response.split(' ')[1]]. *)
Definition expect_token (token : string) (additionalErrors : list string)
  (response : string) : completion result :=
  validateAgainstErrors response additionalErrors ;;;
  if Js.startsWith response token then Return (return_token response)
  else invalidResponse response.

(** The second function given to [createCommandHandler]. *)
Definition responseFunction (c : command) (response : string) : completion result :=
  match c with
  | executeCommand =>
      validateAgainstErrors response [] ;;; Return (RString response)
  | executeMultiPartCommand =>
      validateAgainstErrors response [] ;;; Return (RFunction KDeferred)
  | pauseTube => expect_exactly PAUSED [NOT_FOUND] response
  | put => expect_token INSERTED [BURIED; EXPECTED_CRLF; JOB_TOO_BIG; DRAINING] response
  | use => expect_token USING [] response
  | reserve | reserveWithTimeout => reserveResponseHandler response
  | delete => expect_exactly DELETED [NOT_FOUND] response
  | release => expect_exactly RELEASED [BURIED; NOT_FOUND] response
  | bury => expect_exactly BURIED [NOT_FOUND] response
  | touch => expect_exactly TOUCHED [NOT_FOUND] response
  | watch => expect_token WATCHING [] response
  | ignore => expect_token WATCHING [NOT_IGNORED] response
  | peek =>
      validateAgainstErrors response [NOT_FOUND] ;;;
      if Js.startsWith response FOUND
      then Return (RFunction (KJob (second_token response)))
      else invalidResponse response
  | kick => expect_exactly KICKED [] response
  | kickJob => expect_exactly KICKED [NOT_FOUND] response
  | getCurrentTube => expect_token USING [NOT_FOUND] response
  end.

(** Calling a continuation on the deferred response. *)
Definition resume (k : continuation) (deferredResponse : string) : completion result :=
  match k with
  | KJob id => Return (RJob id deferredResponse)
  | KDeferred => Return (RString deferredResponse)
  end.

(** ** The transport *)

(** The socket, seen from the client: the strings handed to
    [socket.write], oldest first. *)
Record socket := { written : list string }.

Definition fresh_socket : socket := {| written := [] |}.

(** [JackdClient.prototype.write]: [assert(string)], then
    [socket.write(string, 'ascii', ...)], which takes a string. *)
Definition write (string : Js.value) (s : socket) : socket * completion unit :=
  match assert string with
  | Throw e => (s, Throw e)
  | Return _ =>
      match string with
      | Js.Str bytes => ({| written := written s ++ [bytes] |}, Return tt)
      | _ => (s, Throw TypeError)
      end
  end.

(** ** The pending exchange and the decoder *)

(** The state [createCommandHandler] keeps for one call: the [buffer]
    variable, whether [processIncomingData] is still registered on the
    socket, and how the promise was settled, if it was. *)
Record exchange := {
  buffer : string;
  listening : bool;
  outcome : option (completion result)
}.

Definition awaiting (buf : string) : exchange :=
  {| buffer := buf; listening := true; outcome := None |}.

(** [socket.removeListener(...)] followed by [resolve] or [reject];
    [buffer] was emptied before the handler ran, or never filled. *)
Definition settled (o : completion result) : exchange :=
  {| buffer := ""; listening := false; outcome := Some o |}.

Definition is_function (r : result) : option continuation :=
  match r with RFunction k => Some k | _ => None end.

Section Decoder.

Variable responseFunction : string -> completion result.

(** [responseFunctionOverride || responseFunction] *)
Definition handler_of (responseFunctionOverride : option continuation)
  : string -> completion result :=
  match responseFunctionOverride with
  | Some k => resume k
  | None => responseFunction
  end.

(** [processIncomingData(chunk, responseFunctionOverride)], run on the
    current [buffer].  The call on [tail] is on a strictly shorter
    string; [fuel] bounds the depth of these calls. *)
Fixpoint processIncomingData_fuel (fuel : nat) (buf chunk : string)
  (responseFunctionOverride : option continuation) : option exchange :=
  match fuel with
  | 0 => None
  | S fuel' =>
      let buf := buf ++ chunk in
      match Js.indexOf CRLF buf with
      | None => Some (awaiting buf)
      | Some delimiterIndex =>
          let head := Js.substring 0 delimiterIndex buf in
          let tail := Js.substring (delimiterIndex + 2) (String.length buf) buf in
          match handler_of responseFunctionOverride head with
          | Throw err => Some (settled (Throw err))
          | Return res =>
              match is_function res with
              | Some k =>
                  if negb (Nat.eqb (String.length tail) 0)
                  then processIncomingData_fuel fuel' "" tail (Some k)
                  else Some (settled (Return res))
              | None => Some (settled (Return res))
              end
          end
      end
  end.

Definition processIncomingData (buf chunk : string)
  (responseFunctionOverride : option continuation) : option exchange :=
  processIncomingData_fuel (S (String.length (buf ++ chunk))) buf chunk
    responseFunctionOverride.

(** A ['data'] event: the socket calls the listener, if it is still
    registered, with the chunk alone. *)
Definition on_data (x : exchange) (chunk : string) : option exchange :=
  if listening x then processIncomingData (buffer x) chunk None
  else Some x.

(** The chunks of a response, delivered in order. *)
Fixpoint feed (x : exchange) (chunks : list string) : option exchange :=
  match chunks with
  | [] => Some x
  | chunk :: rest =>
      match on_data x chunk with
      | Some x' => feed x' rest
      | None => None
      end
  end.

End Decoder.

(** The async function [createCommandHandler] returns, up to the point
    where the listener is registered: encode, write, start with an empty
    buffer.  A throw on the way rejects the call.  The socket accepts
    every write: a failing transport is outside this model. *)
Definition invoke (c : command) (arg : Js.value) (o : options) (s : socket)
  : socket * completion exchange :=
  match commandFunction c arg o with
  | Throw e => (s, Throw e)
  | Return string =>
      match write string s with
      | (s', Throw e) => (s', Throw e)
      | (s', Return _) => (s', Return (awaiting ""))
      end
  end.

(** A whole call: the response arrives as [chunks]. *)
Definition respond (c : command) (chunks : list string) : option exchange :=
  feed (responseFunction c) (awaiting "") chunks.

Definition resolved (r : result) : option exchange := Some (settled (Return r)).
Definition rejected (e : error) : option exchange := Some (settled (Throw e)).

(** ** Vocabulary of the statements *)

(** A line: a string with no terminator inside. *)
Definition is_line (s : string) : Prop := Js.indexOf CRLF s = None.

(** The status token: the first of the space-separated tokens. *)
Definition leading_token (line : string) : string :=
  hd "" (Js.split " " line).

(** A handler that never asks for a payload phase. *)
Definition single_phase (rf : string -> completion result) : Prop :=
  forall head k, rf head <> Return (RFunction k).

Definition two_phase (c : command) : bool :=
  match c with
  | reserve | reserveWithTimeout | peek | executeMultiPartCommand => true
  | _ => false
  end.

(** The commands whose encoder starts with [assert] on its first
    argument. *)
Definition asserts_argument (c : command) : bool :=
  match c with
  | put | use | delete | release | bury | touch | watch | ignore | peek
  | kick | kickJob => true
  | _ => false
  end.

(** The commands whose encoder is a fixed template, as opposed to the two
    raw pass-throughs. *)
Definition templated (c : command) : bool :=
  match c with
  | executeCommand | executeMultiPartCommand => false
  | _ => true
  end.

(** The bytes of a response, whatever the chunks they arrive in. *)
Definition join (chunks : list string) : string :=
  fold_right append "" chunks.

(** A two-phase response as the protocol frames it: status token, job
    id, the byte count of the payload, then the payload between two
    terminators. *)
Definition framed_response (token id payload : string) : string :=
  token ++ " " ++ id ++ " "
  ++ Js.of_Z (Z.of_nat (String.length payload)) ++ CRLF ++ payload ++ CRLF.

(** Reading of "the payload has exactly the declared length": a framed
    response delivered whole resolves with the payload it frames. *)
Definition delivers_declared_payload (c : command) (token id payload : string)
  : Prop :=
  respond c [framed_response token id payload] = resolved (RJob (Some id) payload).

(** Reading of "the remainder is carried forward": after the chunk
    [head ++ CRLF ++ tail] the exchange still holds [tail]. *)
Definition carries_remainder (c : command) (head tail : string) : Prop :=
  exists x, respond c [head ++ CRLF ++ tail] = Some x /\ buffer x = tail.

(** The second argument each handler gives to [validateAgainstErrors]. *)
Definition additionalErrors (c : command) : list string :=
  match c with
  | executeCommand | executeMultiPartCommand => []
  | pauseTube => [NOT_FOUND]
  | put => [BURIED; EXPECTED_CRLF; JOB_TOO_BIG; DRAINING]
  | use => []
  | reserve | reserveWithTimeout => [DEADLINE_SOON; TIMED_OUT]
  | delete => [NOT_FOUND]
  | release => [BURIED; NOT_FOUND]
  | bury => [NOT_FOUND]
  | touch => [NOT_FOUND]
  | watch => []
  | ignore => [NOT_IGNORED]
  | peek => [NOT_FOUND]
  | kick => []
  | kickJob => [NOT_FOUND]
  | getCurrentTube => [NOT_FOUND]
  end.

(** The token each handler tests the response for; the two raw
    pass-throughs test for none. *)
Definition success_token (c : command) : option string :=
  match c with
  | executeCommand | executeMultiPartCommand => None
  | pauseTube => Some PAUSED
  | put => Some INSERTED
  | use | getCurrentTube => Some USING
  | reserve | reserveWithTimeout => Some RESERVED
  | delete => Some DELETED
  | release => Some RELEASED
  | bury => Some BURIED
  | touch => Some TOUCHED
  | watch | ignore => Some WATCHING
  | peek => Some FOUND
  | kick | kickJob => Some KICKED
  end.

(** The handlers that compare the whole response with their token
    ([response === TOKEN]) and return nothing. *)
Definition bare_reply (c : command) : bool :=
  match c with
  | pauseTube | delete | release | bury | touch | kick | kickJob => true
  | _ => false
  end.

(** The handlers that test a prefix ([response.startsWith(TOKEN)]) and
    return the second token. *)
Definition token_reply (c : command) : bool :=
  match c with
  | put | use | watch | ignore | getCurrentTube => true
  | _ => false
  end.

(** The handlers that test a prefix and return the continuation that
    builds [{ id, payload }]. *)
Definition job_reply (c : command) : bool :=
  match c with
  | reserve | reserveWithTimeout | peek => true
  | _ => false
  end.

(** A string that [split(' ')] leaves in one piece. *)
Definition single_token (s : string) : Prop := Js.split " " s = [s].

(** The states an exchange is found in between two ['data'] events:
    pending, with the listener registered and no whole line buffered, or
    settled. *)
Definition well_formed (x : exchange) : Prop :=
  (listening x = true /\ outcome x = None /\ is_line (buffer x))
  \/ (exists o, x = settled o).

(** * Sanity checks on the scenarios of the documentation *)

Example scenario_put :
  commandFunction put (Js.Str "hello") no_options
  = Return (Js.Str ("put 0 0 60 5" ++ CRLF ++ "hello" ++ CRLF))
  /\ respond put ["INSERTED 42" ++ CRLF] = resolved (RString "42").
Proof. split; reflexivity. Qed.

Example scenario_reserve :
  respond reserve ["RESERVED 42 5" ++ CRLF ++ "hello" ++ CRLF]
  = resolved (RJob (Some "42") "hello").
Proof. reflexivity. Qed.

Example scenario_delete :
  respond delete ["NOT_FOUND" ++ CRLF] = rejected (ProtocolError "NOT_FOUND").
Proof. reflexivity. Qed.

Example scenario_watch :
  respond watch ["WATCHING 3" ++ CRLF] = resolved (RString "3").
Proof. reflexivity. Qed.

(** * Facts about strings *)

Section Strings.

Lemma length_app (a b : string) :
  String.length (a ++ b) = String.length a + String.length b.
Proof. induction a as [|c a IH]; simpl; [reflexivity | now rewrite IH]. Qed.

Lemma app_empty_r (a : string) : a ++ "" = a.
Proof. induction a as [|c a IH]; simpl; [reflexivity | now rewrite IH]. Qed.

Lemma app_assoc (a b c : string) : (a ++ b) ++ c = a ++ b ++ c.
Proof. induction a as [|x a IH]; simpl; [reflexivity | now rewrite IH]. Qed.

Lemma prefix_cons (a b : ascii) (p s : string) :
  String.prefix (String a p) (String b s) = Ascii.eqb a b && String.prefix p s.
Proof.
  cbn [String.prefix]. destruct (ascii_dec a b) as [->|ne].
  - now rewrite Ascii.eqb_refl.
  - apply Ascii.eqb_neq in ne. now rewrite ne.
Qed.

Lemma prefix_empty (s : string) : String.prefix "" s = true.
Proof. now destruct s. Qed.

Lemma prefix_app (p s : string) : String.prefix p (p ++ s) = true.
Proof.
  induction p as [|c p IH].
  - apply prefix_empty.
  - change (String c p ++ s) with (String c (p ++ s)).
    now rewrite prefix_cons, Ascii.eqb_refl, IH.
Qed.

Lemma prefix_split (p s : string) :
  String.prefix p s = true -> exists r, s = p ++ r.
Proof.
  revert s; induction p as [|c p IH]; intros s H.
  - now exists s.
  - destruct s as [|d s]; [discriminate|].
    rewrite prefix_cons in H. apply andb_true_iff in H as [E H].
    apply Ascii.eqb_eq in E as ->.
    destruct (IH _ H) as [r ->]. now exists r.
Qed.

Lemma prefix_app_stable (p a b : string) :
  String.prefix p a = true -> String.prefix p (a ++ b) = true.
Proof.
  intros H. destruct (prefix_split _ _ H) as [r ->].
  rewrite app_assoc. apply prefix_app.
Qed.

(** The terminator is found at the very start exactly when the string
    begins with CR LF. *)
Lemma prefix_CRLF (s : string) :
  String.prefix CRLF s =
  match s with
  | String c (String d _) => Ascii.eqb CR c && Ascii.eqb LF d
  | _ => false
  end.
Proof.
  unfold CRLF. destruct s as [|c [|d s]]; [reflexivity| |].
  - rewrite prefix_cons. apply andb_false_r.
  - now rewrite !prefix_cons, prefix_empty, andb_true_r.
Qed.

Lemma indexOf_cons (c : ascii) (s : string) :
  Js.indexOf CRLF (String c s) =
  if String.prefix CRLF (String c s) then Some 0
  else option_map S (Js.indexOf CRLF s).
Proof. reflexivity. Qed.

(** An occurrence leaves room for its two characters. *)
Lemma indexOf_bound (s : string) (i : nat) :
  Js.indexOf CRLF s = Some i -> i + 2 <= String.length s.
Proof.
  revert i; induction s as [|c s IH]; intros i H.
  - discriminate.
  - rewrite indexOf_cons, prefix_CRLF in H.
    destruct s as [|d s].
    + discriminate.
    + destruct (Ascii.eqb CR c && Ascii.eqb LF d).
      * injection H as <-. cbn [String.length]. lia.
      * destruct (Js.indexOf CRLF (String d s)) as [j|] eqn:E; [|discriminate].
        injection H as <-. specialize (IH _ eq_refl).
        cbn [String.length] in *. lia.
Qed.

(** Once found, the first terminator stays where it is when more bytes
    are appended. *)
Lemma indexOf_app_stable (a b : string) (i : nat) :
  Js.indexOf CRLF a = Some i -> Js.indexOf CRLF (a ++ b) = Some i.
Proof.
  revert i; induction a as [|c a IH]; intros i H.
  - discriminate.
  - rewrite indexOf_cons in H. change (String c a ++ b) with (String c (a ++ b)).
    rewrite indexOf_cons.
    destruct (String.prefix CRLF (String c a)) eqn:P.
    + change (String c (a ++ b)) with (String c a ++ b).
      now rewrite (prefix_app_stable _ _ b P).
    + destruct (Js.indexOf CRLF a) as [j|] eqn:E; [|discriminate].
      rewrite (IH _ eq_refl).
      destruct a as [|d a]; [discriminate|].
      change (String d a ++ b) with (String d (a ++ b)).
      rewrite prefix_CRLF in P |- *. cbv beta iota in P |- *. now rewrite P.
Qed.

(** In [head ++ CRLF ++ tail] the first terminator is the one written. *)
Lemma indexOf_line (head tail : string) :
  is_line head ->
  Js.indexOf CRLF (head ++ CRLF ++ tail) = Some (String.length head).
Proof.
  unfold is_line. induction head as [|c h IH]; intros H.
  - change ("" ++ CRLF ++ tail) with (String CR (String LF tail)).
    rewrite indexOf_cons, prefix_CRLF. reflexivity.
  - rewrite indexOf_cons in H.
    change (String c h ++ CRLF ++ tail) with (String c (h ++ CRLF ++ tail)).
    rewrite indexOf_cons.
    destruct (String.prefix CRLF (String c h)) eqn:P; [discriminate|].
    destruct (Js.indexOf CRLF h) eqn:E; [discriminate|].
    rewrite (IH eq_refl).
    destruct h as [|d h].
    + change ("" ++ CRLF ++ tail) with (String CR (String LF tail)).
      rewrite prefix_CRLF. cbv beta iota.
      replace (Ascii.eqb LF CR) with false by reflexivity.
      now rewrite andb_false_r.
    + change (String d h ++ CRLF ++ tail) with (String d (h ++ CRLF ++ tail)).
      rewrite prefix_CRLF in P |- *. cbv beta iota in P |- *. now rewrite P.
Qed.

Lemma substring_0_app (a b : string) :
  Js.substring 0 (String.length a) (a ++ b) = a.
Proof.
  unfold Js.substring. rewrite Nat.sub_0_r.
  induction a as [|c a IH]; simpl.
  - now destruct b.
  - now rewrite IH.
Qed.

Lemma substring_0_stable (a b : string) (i : nat) :
  i <= String.length a ->
  Js.substring 0 i (a ++ b) = Js.substring 0 i a.
Proof.
  unfold Js.substring. rewrite Nat.sub_0_r.
  revert i; induction a as [|c a IH]; intros i H.
  - simpl in H. replace i with 0 by lia. now destruct b.
  - destruct i as [|i]; simpl; [reflexivity|].
    rewrite IH; [reflexivity | simpl in H; lia].
Qed.

Lemma substring_all (s : string) :
  String.substring 0 (String.length s) s = s.
Proof. induction s as [|c s IH]; simpl; [reflexivity | now rewrite IH]. Qed.

Lemma substring_skip (a b : string) (m : nat) :
  String.substring (String.length a) m (a ++ b) = String.substring 0 m b.
Proof. induction a as [|c a IH]; simpl; [reflexivity | exact IH]. Qed.

Lemma substring_tail (head tail : string) :
  Js.substring (String.length head + 2)
    (String.length (head ++ CRLF ++ tail)) (head ++ CRLF ++ tail) = tail.
Proof.
  unfold Js.substring.
  rewrite <- (app_assoc head CRLF tail).
  replace (String.length head + 2) with (String.length (head ++ CRLF))
    by (rewrite length_app; reflexivity).
  rewrite substring_skip, length_app.
  replace (_ + _ - _) with (String.length tail) by lia.
  apply substring_all.
Qed.

Lemma length_substring (n m : nat) (s : string) :
  String.length (String.substring n m s) = Nat.min m (String.length s - n).
Proof.
  revert n m; induction s as [|c s IH]; intros n m.
  - destruct n, m; reflexivity.
  - destruct n as [|n].
    + destruct m as [|m]; simpl; [reflexivity | now rewrite IH, Nat.sub_0_r].
    + simpl. apply IH.
Qed.

(** The tail left after a terminator is shorter than the buffer. *)
Lemma length_tail (s : string) (i : nat) :
  Js.indexOf CRLF s = Some i ->
  String.length (Js.substring (i + 2) (String.length s) s) + 2 <= String.length s.
Proof.
  intros H. apply indexOf_bound in H.
  unfold Js.substring. rewrite length_substring. lia.
Qed.

(** The status token is a prefix of its line. *)
Lemma leading_token_prefix (line : string) :
  Js.startsWith line (leading_token line) = true.
Proof.
  unfold Js.startsWith, leading_token.
  induction line as [|c s IH]; [reflexivity|].
  cbn [Js.split]. destruct (Ascii.eqb c " "); [reflexivity|].
  destruct (Js.split " " s) as [|t ts]; cbn [hd] in *;
    rewrite prefix_cons, Ascii.eqb_refl; [apply prefix_empty | exact IH].
Qed.

End Strings.

(** * Facts about the decoder *)

Section DecoderFacts.

Variable rf : string -> completion result.

(** Any fuel above the buffer length gives the same run. *)
Lemma fuel_irrelevant (f1 f2 : nat) (buf chunk : string) (ov : option continuation) :
  String.length (buf ++ chunk) < f1 ->
  String.length (buf ++ chunk) < f2 ->
  processIncomingData_fuel rf f1 buf chunk ov
  = processIncomingData_fuel rf f2 buf chunk ov.
Proof.
  revert f2 buf chunk ov.
  induction f1 as [|f1 IH]; intros f2 buf chunk ov H1 H2; [lia|].
  destruct f2 as [|f2]; [lia|].
  cbn [processIncomingData_fuel].
  destruct (Js.indexOf CRLF (buf ++ chunk)) as [i|] eqn:E; [|reflexivity].
  destruct (handler_of rf ov (Js.substring 0 i (buf ++ chunk)))
    as [res|err]; [|reflexivity].
  destruct (is_function res) as [k|]; [|reflexivity].
  destruct (negb _); [|reflexivity].
  pose proof (length_tail _ _ E) as L.
  apply IH; cbn [append]; lia.
Qed.

(** The decoder, one level unfolded. *)
Lemma processIncomingData_eq (buf chunk : string) (ov : option continuation) :
  processIncomingData rf buf chunk ov =
  match Js.indexOf CRLF (buf ++ chunk) with
  | None => Some (awaiting (buf ++ chunk))
  | Some i =>
      let tail := Js.substring (i + 2) (String.length (buf ++ chunk)) (buf ++ chunk) in
      match handler_of rf ov (Js.substring 0 i (buf ++ chunk)) with
      | Throw err => rejected err
      | Return res =>
          match is_function res with
          | Some k =>
              if negb (Nat.eqb (String.length tail) 0)
              then processIncomingData rf "" tail (Some k)
              else resolved res
          | None => resolved res
          end
      end
  end.
Proof.
  unfold processIncomingData at 1. cbn [processIncomingData_fuel].
  destruct (Js.indexOf CRLF (buf ++ chunk)) as [i|] eqn:E; [|reflexivity].
  cbv zeta.
  destruct (handler_of rf ov (Js.substring 0 i (buf ++ chunk)))
    as [res|err]; [|reflexivity].
  destruct (is_function res) as [k|]; [|reflexivity].
  destruct (negb _); [|reflexivity].
  pose proof (length_tail _ _ E) as L.
  apply fuel_irrelevant; cbn [append]; lia.
Qed.

(** The decoder always returns: the fuel it is given suffices. *)
Lemma processIncomingData_total (buf chunk : string) (ov : option continuation) :
  exists x, processIncomingData rf buf chunk ov = Some x.
Proof.
  remember (String.length (buf ++ chunk)) as n eqn:En.
  revert buf chunk ov En.
  induction n as [n IH] using lt_wf_ind; intros buf chunk ov En.
  rewrite processIncomingData_eq.
  destruct (Js.indexOf CRLF (buf ++ chunk)) as [i|] eqn:E; [|eauto].
  cbv zeta.
  destruct (handler_of rf ov _) as [res|err]; [|unfold rejected; eauto].
  destruct (is_function res) as [k|]; [|unfold resolved; eauto].
  destruct (negb _); [|unfold resolved; eauto].
  pose proof (length_tail _ _ E) as L.
  eapply IH; [|reflexivity]. cbn [append]. lia.
Qed.

Lemma on_data_total (x : exchange) (chunk : string) :
  exists x', on_data rf x chunk = Some x'.
Proof.
  unfold on_data. destruct (listening x); [apply processIncomingData_total | eauto].
Qed.

Lemma feed_total (chunks : list string) (x : exchange) :
  exists x', feed rf x chunks = Some x'.
Proof.
  revert x; induction chunks as [|chunk rest IH]; intros x; cbn [feed]; [eauto|].
  destruct (on_data_total x chunk) as [x' ->]. apply IH.
Qed.

(** A chunk that brings one whole line and whatever follows it. *)
Lemma processIncomingData_line (head tail : string) (ov : option continuation) :
  is_line head ->
  processIncomingData rf "" (head ++ CRLF ++ tail) ov =
  match handler_of rf ov head with
  | Throw err => rejected err
  | Return res =>
      match is_function res with
      | Some k =>
          if negb (Nat.eqb (String.length tail) 0)
          then processIncomingData rf "" tail (Some k)
          else resolved res
      | None => resolved res
      end
  end.
Proof.
  intros H. rewrite processIncomingData_eq. cbn [append].
  rewrite (indexOf_line _ tail H). cbv zeta.
  now rewrite substring_0_app, substring_tail.
Qed.

(** Bytes without a terminator are kept and the exchange stays pending. *)
Lemma processIncomingData_pending (buf chunk : string) (ov : option continuation) :
  is_line (buf ++ chunk) ->
  processIncomingData rf buf chunk ov = Some (awaiting (buf ++ chunk)).
Proof. intros H. rewrite processIncomingData_eq. now rewrite H. Qed.

(** Once settled, an exchange ignores what arrives. *)
Lemma feed_settled (o : completion result) (chunks : list string) :
  feed rf (settled o) chunks = Some (settled o).
Proof. induction chunks as [|c cs IH]; [reflexivity | exact IH]. Qed.

End DecoderFacts.

(** * Chunk boundaries *)

Section Chunks.

Variable rf : string -> completion result.

Lemma join_cons (c : string) (cs : list string) : join (c :: cs) = c ++ join cs.
Proof. reflexivity. Qed.

(** However the bytes are cut, the exchange settles on the first line
    as soon as its terminator is in, provided that line does not open a
    payload phase. *)
Lemma feed_first_line (chunks : list string) (buf head tail : string) :
  is_line buf ->
  is_line head ->
  buf ++ join chunks = head ++ CRLF ++ tail ->
  (forall k, rf head <> Return (RFunction k)) ->
  feed rf (awaiting buf) chunks = Some (settled (rf head)).
Proof.
  revert buf; induction chunks as [|c cs IH]; intros buf Hbuf Hhead E Hterm.
  - cbn [join fold_right] in E. rewrite app_empty_r in E. subst buf.
    unfold is_line in Hbuf.
    rewrite (indexOf_line _ _ Hhead) in Hbuf. discriminate.
  - rewrite join_cons, <- app_assoc in E.
    cbn [feed on_data awaiting listening buffer].
    rewrite processIncomingData_eq.
    destruct (Js.indexOf CRLF (buf ++ c)) as [i|] eqn:Ei.
    + pose proof (indexOf_app_stable _ (join cs) _ Ei) as Es.
      rewrite E, (indexOf_line _ _ Hhead) in Es. injection Es as <-.
      pose proof (indexOf_bound _ _ Ei) as Hb.
      rewrite <- (substring_0_stable _ (join cs)) by lia.
      rewrite E, substring_0_app. cbv zeta. cbn [handler_of].
      destruct (rf head) as [res|err] eqn:Er.
      * destruct res; cbn [is_function];
          solve [apply feed_settled | now elim (Hterm k)].
      * apply feed_settled.
    + apply IH; assumption.
Qed.

(** Chunk-boundary invariance for the handlers without a payload phase:
    any cut of the bytes leaves the exchange where the bytes delivered
    whole leave it. *)
Lemma single_phase_chunk_invariance (chunks : list string) :
  single_phase rf ->
  feed rf (awaiting "") chunks = feed rf (awaiting "") [join chunks].
Proof.
  intros Hs.
  assert (G : forall cs buf, is_line buf ->
            feed rf (awaiting buf) cs = processIncomingData rf buf (join cs) None).
  { induction cs as [|c cs IH]; intros buf Hbuf.
    - cbn [feed join fold_right]. rewrite processIncomingData_pending;
        rewrite app_empty_r; [reflexivity | assumption].
    - cbn [feed on_data awaiting listening buffer].
      rewrite (processIncomingData_eq rf buf (join (c :: cs))).
      rewrite processIncomingData_eq, join_cons, <- app_assoc.
      destruct (Js.indexOf CRLF (buf ++ c)) as [i|] eqn:Ei.
      + rewrite (indexOf_app_stable _ (join cs) _ Ei).
        pose proof (indexOf_bound _ _ Ei) as Hb.
        rewrite (substring_0_stable _ (join cs)) by lia.
        cbv zeta. cbn [handler_of].
        destruct (rf (Js.substring 0 i (buf ++ c))) as [res|err] eqn:Er.
        * destruct res; cbn [is_function];
            solve [apply feed_settled | now elim (Hs _ _ Er)].
        * apply feed_settled.
      + rewrite (IH _ Ei), processIncomingData_eq. reflexivity. }
  rewrite (G chunks "" eq_refl).
  cbn [feed on_data awaiting listening buffer].
  now destruct (processIncomingData rf "" (join chunks) None).
Qed.

End Chunks.

(** * The catalog's handlers *)

Lemma resume_terminal (k : continuation) (deferredResponse : string) :
  exists res, resume k deferredResponse = Return res /\ is_function res = None.
Proof. destruct k; eexists; split; reflexivity. Qed.

Lemma expect_exactly_terminal (token : string) (extra : list string) :
  single_phase (expect_exactly token extra).
Proof.
  intros head k. unfold expect_exactly.
  destruct (validateAgainstErrors head extra); cbn [bind]; [|discriminate].
  destruct (String.eqb head token); discriminate.
Qed.

Lemma expect_token_terminal (token : string) (extra : list string) :
  single_phase (expect_token token extra).
Proof.
  intros head k. unfold expect_token, return_token.
  destruct (validateAgainstErrors head extra); cbn [bind]; [|discriminate].
  destruct (Js.startsWith head token); [|discriminate].
  destruct (second_token head); discriminate.
Qed.

(** The commands outside the reserve and peek families never open a
    payload phase. *)
Lemma single_phase_commands (c : command) :
  two_phase c = false -> single_phase (responseFunction c).
Proof.
  destruct c; intros H; try discriminate H; cbn [responseFunction];
    try apply expect_exactly_terminal; try apply expect_token_terminal.
  intros head k. cbv beta iota delta [responseFunction].
  destruct (validateAgainstErrors head []); cbn [bind]; discriminate.
Qed.

(** X1: for those commands the cut of the response into chunks is
    immaterial. *)
Lemma single_phase_commands_chunk_invariant (c : command) (chunks : list string) :
  two_phase c = false -> respond c chunks = respond c [join chunks].
Proof.
  intros H. apply single_phase_chunk_invariance, single_phase_commands, H.
Qed.

(** * The decoder and the payload phase *)

(** C1 (the code departs from the claim): a reserve response delivered
    whole resolves with the job, but the same bytes cut right after the
    status line resolve with the continuation itself, and cut inside the
    payload they are rejected, the payload having been handed to the
    status-line handler. *)
Theorem C1_reserve_split_diverges :
  respond reserve ["RESERVED 42 5" ++ CRLF ++ "hello" ++ CRLF]
    = resolved (RJob (Some "42") "hello")
  /\ respond reserve ["RESERVED 42 5" ++ CRLF; "hello" ++ CRLF]
    = resolved (RFunction (KJob (Some "42")))
  /\ respond reserve ["RESERVED 42 5" ++ CRLF ++ "hel"; "lo" ++ CRLF]
    = rejected (UnexpectedResponse "hello").
Proof. repeat split; vm_compute; reflexivity. Qed.

(** C2 (the code departs from the claim): when a chunk ends right after
    the status line of a two-phase response, the exchange does not wait
    for the payload; it resolves at once with the continuation, and the
    chunks that follow are ignored. *)
Theorem C2_status_line_alone_resolves_with_continuation
  (c : command) (head : string) (k : continuation) (later : list string) :
  is_line head ->
  responseFunction c head = Return (RFunction k) ->
  respond c ((head ++ CRLF) :: later) = resolved (RFunction k).
Proof.
  intros Hline Hk. unfold respond.
  cbn [feed on_data awaiting listening buffer].
  change (head ++ CRLF) with (head ++ CRLF ++ "").
  rewrite (processIncomingData_line _ head "" None Hline).
  cbn [handler_of]. rewrite Hk. cbn [is_function String.length Nat.eqb negb].
  unfold resolved. apply feed_settled.
Qed.

Lemma C2_status_line_alone_witness :
  is_line "RESERVED 42 5"
  /\ responseFunction reserve "RESERVED 42 5"
     = Return (RFunction (KJob (Some "42")))
  /\ respond reserve [("RESERVED 42 5" ++ CRLF); ("hello" ++ CRLF)]
     = resolved (RFunction (KJob (Some "42"))).
Proof.
  refine (conj eq_refl (conj eq_refl
    (C2_status_line_alone_resolves_with_continuation
       reserve "RESERVED 42 5" (KJob (Some "42")) ["hello" ++ CRLF]
       eq_refl eq_refl))).
Defined.

(** C3, as stated, fails: a six-byte payload that holds a CRLF is
    delivered cut at that CRLF. *)
Lemma C3_declared_length_not_honoured :
  ~ delivers_declared_payload reserve RESERVED "42" ("he" ++ CRLF ++ "lo").
Proof. unfold delivers_declared_payload. vm_compute. discriminate. Qed.

(** C3 (amended): when the status line of a two-phase response arrives
    in one chunk with the bytes after it, the payload handed to the
    continuation is what lies between the terminator of the status line
    and the next CRLF of that chunk; the length the status line declares
    plays no part. *)
Theorem C3_payload_runs_to_next_CRLF
  (c : command) (head payload rest : string) (k : continuation) :
  is_line head ->
  is_line payload ->
  responseFunction c head = Return (RFunction k) ->
  respond c [head ++ CRLF ++ payload ++ CRLF ++ rest]
  = Some (settled (resume k payload)).
Proof.
  intros Hhead Hpay Hk. unfold respond.
  cbn [feed on_data awaiting listening buffer].
  rewrite (processIncomingData_line _ head _ None Hhead).
  cbn [handler_of]. rewrite Hk. cbn [is_function].
  replace (Nat.eqb (String.length (payload ++ CRLF ++ rest)) 0) with false.
  - cbn [negb]. rewrite (processIncomingData_line _ payload rest _ Hpay).
    cbn [handler_of].
    destruct (resume_terminal k payload) as [res [-> Hres]].
    rewrite Hres. reflexivity.
  - symmetry. apply Nat.eqb_neq. rewrite !length_app. cbn. lia.
Qed.

Lemma C3_payload_runs_to_next_CRLF_witness :
  is_line "RESERVED 42 6"
  /\ is_line "he"
  /\ responseFunction reserve "RESERVED 42 6"
     = Return (RFunction (KJob (Some "42")))
  /\ respond reserve ["RESERVED 42 6" ++ CRLF ++ "he" ++ CRLF ++ "lo" ++ CRLF]
     = Some (settled (resume (KJob (Some "42")) "he")).
Proof.
  refine (conj eq_refl (conj eq_refl (conj eq_refl
    (C3_payload_runs_to_next_CRLF reserve "RESERVED 42 6" "he" ("lo" ++ CRLF)
       (KJob (Some "42")) eq_refl eq_refl eq_refl)))).
Defined.

(** C4, as stated, fails: what follows a line with a terminal result is
    dropped with the buffer. *)
Lemma C4_remainder_dropped_on_terminal_result :
  ~ carries_remainder delete DELETED "EXTRA".
Proof.
  intros [x [Hx Hb]]. vm_compute in Hx. injection Hx as <-. discriminate Hb.
Qed.

(** C4 (amended): when a line is split off and its handler returns a
    continuation, a non-empty remainder is carried forward: it is decoded
    at once as payload bytes for that continuation, and stays in the
    buffer of the pending exchange when it has no terminator yet.  When
    the handler returns a terminal result or throws, the exchange settles
    with an empty buffer. *)
Theorem C4_remainder_carried_into_payload_phase
  (c : command) (head tail : string) :
  is_line head ->
  match responseFunction c head with
  | Return (RFunction k) =>
      tail <> "" ->
      respond c [head ++ CRLF ++ tail]
      = processIncomingData (responseFunction c) "" tail (Some k)
      /\ (is_line tail -> respond c [head ++ CRLF ++ tail] = Some (awaiting tail))
  | Return res => respond c [head ++ CRLF ++ tail] = resolved res
  | Throw err => respond c [head ++ CRLF ++ tail] = rejected err
  end.
Proof.
  intros Hhead. unfold respond.
  cbn [feed on_data awaiting listening buffer].
  rewrite (processIncomingData_line _ head tail None Hhead). cbn [handler_of].
  destruct (responseFunction c head) as [res|err].
  - destruct res as [| s | id p | k]; cbn [is_function];
      try (now destruct (resolved _)).
    intros Hne.
    replace (Nat.eqb (String.length tail) 0) with false
      by (destruct tail; [now elim Hne | reflexivity]).
    cbn [negb].
    destruct (processIncomingData_total (responseFunction c) "" tail (Some k))
      as [x Hx].
    rewrite Hx. split; [reflexivity|].
    intros Htail. rewrite <- Hx.
    now rewrite processIncomingData_pending.
  - reflexivity.
Qed.

Lemma C4_remainder_carried_witness :
  is_line "RESERVED 42 5"
  /\ "hel" <> ""
  /\ is_line "hel"
  /\ respond reserve ["RESERVED 42 5" ++ CRLF ++ "hel"]
     = processIncomingData (responseFunction reserve) "" "hel"
         (Some (KJob (Some "42")))
  /\ respond reserve ["RESERVED 42 5" ++ CRLF ++ "hel"] = Some (awaiting "hel").
Proof.
  assert (Hne : "hel" <> "") by discriminate.
  pose proof (C4_remainder_carried_into_payload_phase
                reserve "RESERVED 42 5" "hel" eq_refl Hne) as H.
  exact (conj eq_refl (conj Hne (conj eq_refl
           (conj (proj1 H) (proj2 H eq_refl))))).
Defined.

(** * The error classifier *)

(** A line whose status token is a shared error code is refused whatever
    the additional errors of the command are. *)
Lemma validateAgainstErrors_shared (line : string) (additionalErrors : list string) :
  In (leading_token line) shared_errors ->
  validateAgainstErrors line additionalErrors = Throw (ProtocolError line).
Proof.
  intros Hin. unfold validateAgainstErrors.
  replace (existsb _ _) with true; [reflexivity|].
  symmetry. apply existsb_exists. exists (leading_token line). split.
  - apply in_or_app. now left.
  - apply leading_token_prefix.
Qed.

(** The same for an additional error the command declares. *)
Lemma validateAgainstErrors_additional (line : string) (additionalErrors : list string) :
  In (leading_token line) additionalErrors ->
  validateAgainstErrors line additionalErrors = Throw (ProtocolError line).
Proof.
  intros Hin. unfold validateAgainstErrors.
  replace (existsb _ _) with true; [reflexivity|].
  symmetry. apply existsb_exists. exists (leading_token line). split.
  - apply in_or_app. now right.
  - apply leading_token_prefix.
Qed.

(** Every handler of the catalog starts with the classifier, so a throw
    of the classifier is the outcome of the handler. *)
Lemma responseFunction_validates_first (c : command) (line : string) (e : error) :
  (forall additionalErrors, validateAgainstErrors line additionalErrors = Throw e) ->
  responseFunction c line = Throw e.
Proof.
  intros H. destruct c;
    cbv beta iota delta
      [responseFunction expect_exactly expect_token reserveResponseHandler];
    now rewrite H.
Qed.

(** C5: for every command of the catalog, a response line whose status
    token is one of the shared error codes makes the handler throw an
    error that carries the line, before any success token is looked at,
    and the exchange is rejected with that error however the bytes are
    cut into chunks. *)
Theorem C5_shared_errors_fail_every_command
  (c : command) (line rest : string) (chunks : list string) :
  In (leading_token line) shared_errors ->
  is_line line ->
  join chunks = line ++ CRLF ++ rest ->
  responseFunction c line = Throw (ProtocolError line)
  /\ respond c chunks = rejected (ProtocolError line).
Proof.
  intros Hin Hline Hjoin.
  assert (Hrf : responseFunction c line = Throw (ProtocolError line)).
  { apply responseFunction_validates_first. intros extra.
    now apply validateAgainstErrors_shared. }
  split; [exact Hrf|].
  unfold respond, rejected. rewrite <- Hrf.
  apply (feed_first_line _ chunks "" line rest eq_refl Hline Hjoin).
  intros k. rewrite Hrf. discriminate.
Qed.

Lemma C5_shared_errors_witness :
  In (leading_token "TIMED_OUT") shared_errors
  /\ is_line "TIMED_OUT"
  /\ join ["TIMED"; "_OUT" ++ CRLF] = "TIMED_OUT" ++ CRLF ++ ""
  /\ responseFunction reserve "TIMED_OUT" = Throw (ProtocolError "TIMED_OUT")
  /\ respond reserve ["TIMED"; "_OUT" ++ CRLF]
     = rejected (ProtocolError "TIMED_OUT").
Proof.
  assert (Hin : In (leading_token "TIMED_OUT") shared_errors)
    by (vm_compute; tauto).
  refine (conj Hin (conj eq_refl (conj eq_refl
    (C5_shared_errors_fail_every_command reserve "TIMED_OUT" ""
       ["TIMED"; "_OUT" ++ CRLF] Hin eq_refl eq_refl)))).
Defined.

(** C6: the line BURIED resolves bury with no value, while a line whose
    status token is BURIED rejects put and release with an error that
    carries the line; in each case however the bytes are cut. *)
Theorem C6_buried_dual_meaning :
  (forall (chunks : list string) (rest : string),
      join chunks = BURIED ++ CRLF ++ rest ->
      respond bury chunks = resolved RUndefined)
  /\ (forall (line rest : string) (chunks : list string),
         leading_token line = BURIED ->
         is_line line ->
         join chunks = line ++ CRLF ++ rest ->
         respond put chunks = rejected (ProtocolError line)
         /\ respond release chunks = rejected (ProtocolError line)).
Proof.
  split.
  - intros chunks rest Hjoin.
    change (resolved RUndefined)
      with (Some (settled (responseFunction bury BURIED))).
    apply (feed_first_line _ chunks "" BURIED rest eq_refl eq_refl Hjoin).
    intros k. discriminate.
  - intros line rest chunks Htok Hline Hjoin.
    assert (Hput : responseFunction put line = Throw (ProtocolError line)).
    { cbv beta iota delta [responseFunction expect_token].
      rewrite validateAgainstErrors_additional; [reflexivity|].
      rewrite Htok. now left. }
    assert (Hrel : responseFunction release line = Throw (ProtocolError line)).
    { cbv beta iota delta [responseFunction expect_exactly].
      rewrite validateAgainstErrors_additional; [reflexivity|].
      rewrite Htok. now left. }
    unfold respond, rejected. split.
    + rewrite <- Hput.
      apply (feed_first_line _ chunks "" line rest eq_refl Hline Hjoin).
      intros k. rewrite Hput. discriminate.
    + rewrite <- Hrel.
      apply (feed_first_line _ chunks "" line rest eq_refl Hline Hjoin).
      intros k. rewrite Hrel. discriminate.
Qed.

Lemma C6_buried_witness :
  (join ["BURIED" ++ CRLF] = BURIED ++ CRLF ++ ""
   /\ respond bury ["BURIED" ++ CRLF] = resolved RUndefined)
  /\ (leading_token "BURIED 42" = BURIED
      /\ is_line "BURIED 42"
      /\ join ["BURIED 42" ++ CRLF] = "BURIED 42" ++ CRLF ++ ""
      /\ respond put ["BURIED 42" ++ CRLF] = rejected (ProtocolError "BURIED 42")
      /\ respond release ["BURIED 42" ++ CRLF]
         = rejected (ProtocolError "BURIED 42")).
Proof.
  refine (conj
    (conj eq_refl
       (proj1 C6_buried_dual_meaning ["BURIED" ++ CRLF] "" eq_refl))
    (conj eq_refl (conj eq_refl (conj eq_refl
       (proj2 C6_buried_dual_meaning "BURIED 42" "" ["BURIED 42" ++ CRLF]
          eq_refl eq_refl eq_refl))))).
Defined.

(** * The encoders *)

(** X6: a call that throws has written nothing. *)
Lemma throw_leaves_socket_untouched
  (c : command) (arg : Js.value) (o : options) (s s' : socket) (e : error) :
  invoke c arg o s = (s', Throw e) -> s' = s.
Proof.
  unfold invoke, write.
  destruct (commandFunction c arg o) as [string|e0]; [|congruence].
  destruct (assert string); [|congruence].
  destruct string; congruence.
Qed.

(** X5: the encoders that start with [assert] refuse a missing or empty
    first argument, and nothing reaches the socket. *)
Lemma asserting_commands_validate_before_write
  (c : command) (arg : Js.value) (o : options) (s : socket) :
  asserts_argument c = true ->
  Js.truthy arg = false ->
  invoke c arg o s = (s, Throw AssertionError).
Proof.
  intros Hc Harg. unfold invoke.
  destruct c; try discriminate Hc;
    cbn [commandFunction]; unfold assert; rewrite Harg; reflexivity.
Qed.

(** C7 (the code departs from the claim): pause-tube has no check of its
    tube name; called without one, or with the empty string, it writes a
    command to the socket and the exchange starts. *)
Theorem C7_pauseTube_without_tube_is_written :
  invoke pauseTube Js.Undefined no_options fresh_socket
    = ({| written := ["pause-tube undefined 0"] |}, Return (awaiting ""))
  /\ invoke pauseTube (Js.Str "") no_options fresh_socket
    = ({| written := ["pause-tube  0"] |}, Return (awaiting ""))
  /\ invoke use Js.Undefined no_options fresh_socket
    = (fresh_socket, Throw AssertionError).
Proof. repeat split; vm_compute; reflexivity. Qed.

Lemma endsWith_app (a suffix : string) : Js.endsWith (a ++ suffix) suffix = true.
Proof.
  unfold Js.endsWith. rewrite length_app.
  replace (_ + _ - _) with (String.length a) by lia.
  rewrite substring_skip, substring_all. apply String.eqb_refl.
Qed.

Lemma terminated_prepend (p b : string) :
  (exists a, b = a ++ CRLF) -> exists a, p ++ b = a ++ CRLF.
Proof. intros [a ->]. exists (p ++ a). now rewrite app_assoc. Qed.

Lemma terminated_cons (c : ascii) (b : string) :
  (exists a, b = a ++ CRLF) -> exists a, String c b = a ++ CRLF.
Proof. intros [a ->]. now exists (String c a). Qed.

(** X8: apart from pause-tube, every template of the catalog ends with the
    line terminator. *)
Lemma templates_end_with_CRLF
  (c : command) (arg : Js.value) (o : options) (bytes : string) :
  templated c = true ->
  c <> pauseTube ->
  commandFunction c arg o = Return (Js.Str bytes) ->
  Js.endsWith bytes CRLF = true.
Proof.
  intros Ht Hp H.
  assert (E : exists a, bytes = a ++ CRLF).
  { destruct c; try discriminate Ht; try (now elim Hp);
      cbn [commandFunction] in H; unfold assert in H;
      try (destruct (Js.truthy arg); [|discriminate H]); cbn [bind] in H;
      try (destruct (Buffer_from_length _); [|discriminate H]; cbn [bind] in H);
      injection H as <-;
      repeat first [ solve [exists ""; reflexivity]
                   | apply terminated_cons
                   | apply terminated_prepend ]. }
  destruct E as [a ->]. apply endsWith_app.
Qed.

(** C8 (the code departs from the claim): the template of pause-tube has
    no terminator, so the bytes it produces do not end with CRLF. *)
Theorem C8_pauseTube_lacks_terminator :
  commandFunction pauseTube (Js.Str "default") no_options
    = Return (Js.Str "pause-tube default 0")
  /\ Js.endsWith "pause-tube default 0" CRLF = false
  /\ Js.indexOf CRLF "pause-tube default 0" = None.
Proof. repeat split; vm_compute; reflexivity. Qed.

(** For a string payload the declared count is the length of the bytes
    that follow. *)
Lemma put_string_declares_its_length (payload : string) (o : options) :
  payload <> "" ->
  commandFunction put (Js.Str payload) o
  = Return (Js.Str ("put " ++ text (Js.or (priority o) zero) ++ " "
                    ++ text (Js.or (delay o) zero) ++ " "
                    ++ text (Js.or (ttr o) (Js.Num 60)) ++ " "
                    ++ Js.of_Z (Z.of_nat (String.length payload)) ++ CRLF
                    ++ payload ++ CRLF)).
Proof.
  intros Hne. cbn [commandFunction]. unfold assert. cbn [Js.truthy].
  destruct (String.eqb_spec payload "") as [->|_]; [now elim Hne|].
  reflexivity.
Qed.

(** C9 (the code departs from the claim): for an object payload the
    count is taken from its JSON text while the bytes appended are its
    [toString]; the empty object declares 2 bytes and sends 15. *)
Theorem C9_put_object_length_mismatch :
  commandFunction put (Js.plain "{}") no_options
    = Return (Js.Str ("put 0 0 60 2" ++ CRLF ++ "[object Object]" ++ CRLF))
  /\ String.length "[object Object]" = 15
  /\ commandFunction put (Js.Obj "[1,2]" "1,2") no_options
    = Return (Js.Str ("put 0 0 60 5" ++ CRLF ++ "1,2" ++ CRLF)).
Proof. repeat split; vm_compute; reflexivity. Qed.

(** C10: a falsy option is replaced by its default just as an omitted
    one is: put with ttr 0 encodes a time-to-run of 60, and kick with
    bound 0 fails its assertion, nothing being written. *)
Theorem C10_falsy_options_take_defaults :
  (forall d : Js.value,
      Js.or Js.Undefined d = d /\ Js.or (Js.Num 0) d = d
      /\ Js.or (Js.Str "") d = d)
  /\ (forall (payload p d : Js.value),
         commandFunction put payload {| priority := p; delay := d; ttr := Js.Num 0 |}
         = commandFunction put payload
             {| priority := p; delay := d; ttr := Js.Undefined |})
  /\ commandFunction put (Js.Str "hello")
       {| priority := Js.Undefined; delay := Js.Undefined; ttr := Js.Num 0 |}
     = Return (Js.Str ("put 0 0 60 5" ++ CRLF ++ "hello" ++ CRLF))
  /\ (forall (o : options) (s : socket),
         commandFunction kick (Js.Num 0) o = Throw AssertionError
         /\ invoke kick (Js.Num 0) o s = (s, Throw AssertionError)).
Proof.
  split; [intros d; repeat split|].
  split; [reflexivity|].
  split; [vm_compute; reflexivity|].
  intros o s. split; reflexivity.
Qed.

(** * More on lines and tokens *)

Section Lines.

Lemma is_line_cons (c : ascii) (s : string) :
  c <> CR -> is_line s -> is_line (String c s).
Proof.
  unfold is_line. intros Hc Hs. rewrite indexOf_cons, prefix_CRLF, Hs.
  destruct s as [|d s]; [reflexivity|].
  replace (Ascii.eqb CR c) with false; [reflexivity|].
  symmetry. apply Ascii.eqb_neq. congruence.
Qed.

(** Gluing two lines with a character other than LF in between gives a
    line. *)
Lemma is_line_app (a b : string) (c : ascii) :
  c <> LF -> is_line a -> is_line (String c b) -> is_line (a ++ String c b).
Proof.
  unfold is_line. intros Hc Ha Hb. induction a as [|x a IH]; [exact Hb|].
  rewrite indexOf_cons in Ha.
  destruct (String.prefix CRLF (String x a)) eqn:P; [discriminate|].
  destruct (Js.indexOf CRLF a) eqn:E; [discriminate|].
  change (String x a ++ String c b) with (String x (a ++ String c b)).
  rewrite indexOf_cons, (IH eq_refl).
  destruct a as [|d a].
  - change ("" ++ String c b) with (String c b).
    rewrite prefix_CRLF. cbv beta iota.
    replace (Ascii.eqb LF c) with false; [now rewrite andb_false_r|].
    symmetry. apply Ascii.eqb_neq. congruence.
  - change (String d a ++ String c b) with (String d (a ++ String c b)).
    rewrite prefix_CRLF in P |- *. cbv beta iota in P |- *. now rewrite P.
Qed.

(** A prefix of a line is a line. *)
Lemma is_line_prefix (a b : string) : is_line (a ++ b) -> is_line a.
Proof.
  unfold is_line. intros H.
  destruct (Js.indexOf CRLF a) as [i|] eqn:E; [|reflexivity].
  rewrite (indexOf_app_stable _ b _ E) in H. discriminate.
Qed.

Lemma is_line_uint (d : Decimal.uint) : is_line (NilEmpty.string_of_uint d).
Proof.
  induction d; cbn [NilEmpty.string_of_uint];
    [reflexivity | apply is_line_cons; [discriminate | assumption] ..].
Qed.

(** The decimal text of a number holds no terminator. *)
Lemma is_line_of_Z (n : Z) : is_line (Js.of_Z n).
Proof.
  unfold Js.of_Z, NilZero.string_of_int.
  destruct (Z.to_int n) as [d|d].
  - unfold NilZero.string_of_uint. destruct d; try reflexivity;
      apply (is_line_uint (_ d)).
  - apply is_line_cons; [discriminate|].
    unfold NilZero.string_of_uint. destruct d; try reflexivity;
      apply (is_line_uint (_ d)).
Qed.

Lemma split_not_nil (sep : ascii) (s : string) : Js.split sep s <> [].
Proof.
  destruct s as [|c s]; cbn [Js.split]; [discriminate|].
  destruct (Ascii.eqb c sep); [discriminate|].
  destruct (Js.split sep s); discriminate.
Qed.

(** Splitting right after a single token. *)
Lemma split_after_token (a b : string) :
  single_token a ->
  Js.split " " (a ++ String " " b) = a :: Js.split " " b.
Proof.
  unfold single_token. revert b; induction a as [|x a IH]; intros b H.
  - reflexivity.
  - cbn [Js.split] in H.
    change (String x a ++ String " " b) with (String x (a ++ String " " b)).
    cbn [Js.split].
    destruct (Ascii.eqb x " "); [discriminate|].
    destruct (Js.split " " a) as [|t ts] eqn:E; [now elim (split_not_nil " " a)|].
    injection H as -> ->. now rewrite (IH b eq_refl).
Qed.

Lemma second_token_after (a b : string) :
  single_token a ->
  second_token (a ++ String " " b) = Some (leading_token b).
Proof.
  intros H. unfold second_token, leading_token.
  rewrite (split_after_token _ _ H). cbn [nth_error].
  destruct (Js.split " " b) eqn:E; [now elim (split_not_nil " " b) | reflexivity].
Qed.

Lemma leading_token_single (a b : string) :
  single_token a -> leading_token (a ++ String " " b) = a /\ leading_token a = a.
Proof.
  intros H. unfold leading_token. rewrite (split_after_token _ _ H).
  unfold single_token in H. now rewrite H.
Qed.

End Lines.

(** * The exchange between two events *)

Section Exchange.

Variable rf : string -> completion result.

(** The decoder sees the buffer and the chunk only through their
    concatenation. *)
Lemma processIncomingData_concat (buf chunk : string) (ov : option continuation) :
  processIncomingData rf buf chunk ov = processIncomingData rf "" (buf ++ chunk) ov.
Proof. now rewrite !processIncomingData_eq. Qed.

(** Chunks that complete no line pile up in the buffer. *)
Lemma feed_pending (chunks : list string) (buf : string) :
  is_line (buf ++ join chunks) ->
  feed rf (awaiting buf) chunks = Some (awaiting (buf ++ join chunks)).
Proof.
  revert buf; induction chunks as [|c cs IH]; intros buf H.
  - cbn [join fold_right feed]. now rewrite app_empty_r.
  - rewrite join_cons, <- app_assoc in H |- *.
    cbn [feed on_data awaiting listening buffer].
    rewrite processIncomingData_pending by exact (is_line_prefix _ _ H).
    now apply IH.
Qed.

Lemma processIncomingData_well_formed
  (buf chunk : string) (ov : option continuation) (x : exchange) :
  processIncomingData rf buf chunk ov = Some x -> well_formed x.
Proof.
  remember (String.length (buf ++ chunk)) as n eqn:En.
  revert buf chunk ov En.
  induction n as [n IH] using lt_wf_ind; intros buf chunk ov En.
  rewrite processIncomingData_eq.
  destruct (Js.indexOf CRLF (buf ++ chunk)) as [i|] eqn:E.
  - cbv zeta.
    destruct (handler_of rf ov _) as [res|err];
      [|intros [= <-]; right; eauto].
    destruct (is_function res) as [k|]; [|intros [= <-]; right; eauto].
    destruct (negb _); [|intros [= <-]; right; eauto].
    pose proof (length_tail _ _ E) as L.
    eapply IH; [|reflexivity]. cbn [append]. lia.
  - intros [= <-]. left. repeat split. exact E.
Qed.

Lemma feed_well_formed (chunks : list string) (x : exchange) :
  well_formed x ->
  exists x', feed rf x chunks = Some x' /\ well_formed x'.
Proof.
  revert x; induction chunks as [|c cs IH]; intros x Hx; cbn [feed]; [eauto|].
  destruct (on_data_total rf x c) as [x1 H1]. rewrite H1. apply IH.
  unfold on_data in H1. destruct (listening x).
  - exact (processIncomingData_well_formed _ _ _ _ H1).
  - now injection H1 as <-.
Qed.

(** When the chunk that completes the status line also brings the
    payload and its terminator, the continuation gets the payload. *)
Lemma feed_coalesced
  (pre : list string) (last head payload rest : string) (k : continuation) :
  is_line (join pre) ->
  is_line head ->
  is_line payload ->
  rf head = Return (RFunction k) ->
  join pre ++ last = head ++ CRLF ++ payload ++ CRLF ++ rest ->
  feed rf (awaiting "") (pre ++ [last]) = Some (settled (resume k payload)).
Proof.
  intros Hpre Hhead Hpay Hk E.
  assert (F : forall cs x, feed rf x (cs ++ [last])
              = match feed rf x cs with
                | Some x' => on_data rf x' last
                | None => None
                end).
  { induction cs as [|c cs IH]; intros x; cbn [feed app].
    - now destruct (on_data rf x last).
    - destruct (on_data rf x c); [apply IH | reflexivity]. }
  rewrite F, (feed_pending pre "" Hpre).
  cbn [append on_data awaiting listening buffer].
  rewrite processIncomingData_concat, E.
  rewrite (processIncomingData_line _ head _ None Hhead).
  cbn [handler_of]. rewrite Hk. cbn [is_function].
  replace (Nat.eqb (String.length (payload ++ CRLF ++ rest)) 0) with false
    by (symmetry; apply Nat.eqb_neq; rewrite !length_app; cbn; lia).
  cbn [negb]. rewrite (processIncomingData_line _ payload rest _ Hpay).
  cbn [handler_of].
  destruct (resume_terminal k payload) as [res [-> Hres]].
  now rewrite Hres.
Qed.

End Exchange.

(** ** What the classifier lets through *)

Lemma validateAgainstErrors_passes (line : string) (additionalErrors : list string) :
  (forall e, In e (shared_errors ++ additionalErrors) -> Js.startsWith line e = false) ->
  validateAgainstErrors line additionalErrors = Return tt.
Proof.
  intros H. unfold validateAgainstErrors.
  destruct (existsb _ _) eqn:E; [|reflexivity].
  apply existsb_exists in E as [e [Hin He]]. rewrite (H e Hin) in He.
  discriminate.
Qed.

Lemma validateAgainstErrors_passed (line : string) (additionalErrors : list string) :
  validateAgainstErrors line additionalErrors = Return tt ->
  forall e, In e (shared_errors ++ additionalErrors) -> Js.startsWith line e = false.
Proof.
  unfold validateAgainstErrors. intros H e Hin.
  destruct (existsb _ _) eqn:E; [discriminate|].
  destruct (Js.startsWith line e) eqn:He; [|reflexivity].
  assert (X : existsb (fun e => Js.startsWith line e)
                (shared_errors ++ additionalErrors) = true)
    by (apply existsb_exists; eauto).
  congruence.
Qed.

Lemma prefix_refl (s : string) : String.prefix s s = true.
Proof. rewrite <- (app_empty_r s) at 2. apply prefix_app. Qed.

(** * Further properties of the decoder *)

Lemma single_phase_commands_chunk_invariant_witness :
  two_phase delete = false
  /\ respond delete ["DEL"; "ET"; "ED" ++ CRLF]
     = respond delete [join ["DEL"; "ET"; "ED" ++ CRLF]].
Proof.
  exact (conj eq_refl
    (single_phase_commands_chunk_invariant delete
       ["DEL"; "ET"; "ED" ++ CRLF] eq_refl)).
Defined.

(** X2: however the bytes are cut, an exchange whose first line does not
    open a payload phase settles with what the handler makes of that
    line; what follows the line is ignored. *)
Theorem first_line_settles_exchange
  (c : command) (chunks : list string) (line rest : string) :
  is_line line ->
  join chunks = line ++ CRLF ++ rest ->
  (forall k, responseFunction c line <> Return (RFunction k)) ->
  respond c chunks = Some (settled (responseFunction c line)).
Proof.
  intros Hline Hjoin Hterm.
  exact (feed_first_line _ chunks "" line rest eq_refl Hline Hjoin Hterm).
Qed.

Lemma first_line_settles_exchange_witness :
  is_line "NOT_FOUND"
  /\ join ["NOT_"; "FOUND" ++ CRLF ++ "junk"] = "NOT_FOUND" ++ CRLF ++ "junk"
  /\ (forall k, responseFunction peek "NOT_FOUND" <> Return (RFunction k))
  /\ respond peek ["NOT_"; "FOUND" ++ CRLF ++ "junk"]
     = Some (settled (responseFunction peek "NOT_FOUND")).
Proof.
  assert (H : forall k, responseFunction peek "NOT_FOUND" <> Return (RFunction k))
    by (intros k; vm_compute; discriminate).
  exact (conj eq_refl (conj eq_refl (conj H
    (first_line_settles_exchange peek ["NOT_"; "FOUND" ++ CRLF ++ "junk"]
       "NOT_FOUND" "junk" eq_refl eq_refl H)))).
Defined.

(** X3: whatever arrives, the exchange is afterwards either pending, with
    its listener registered and no whole line left in the buffer, or
    settled, with the listener removed and the buffer empty. *)
Theorem exchange_stays_well_formed (c : command) (chunks : list string) :
  exists x, respond c chunks = Some x /\ well_formed x.
Proof.
  apply feed_well_formed. left. repeat split.
Qed.

(** * Further properties of the calls *)

Lemma asserting_commands_validate_before_write_witness :
  asserts_argument delete = true
  /\ Js.truthy (Js.Str "") = false
  /\ invoke delete (Js.Str "") no_options fresh_socket
     = (fresh_socket, Throw AssertionError).
Proof.
  exact (conj eq_refl (conj eq_refl
    (asserting_commands_validate_before_write delete (Js.Str "") no_options
       fresh_socket eq_refl eq_refl))).
Defined.

Lemma throw_leaves_socket_untouched_witness :
  invoke put (Js.Num 5) no_options {| written := ["use jobs" ++ CRLF] |}
  = ({| written := ["use jobs" ++ CRLF] |}, Throw TypeError)
  /\ {| written := ["use jobs" ++ CRLF] |} = {| written := ["use jobs" ++ CRLF] |}.
Proof.
  exact (conj eq_refl
    (throw_leaves_socket_untouched put (Js.Num 5) no_options
       {| written := ["use jobs" ++ CRLF] |} {| written := ["use jobs" ++ CRLF] |}
       TypeError eq_refl)).
Defined.



(** * Further properties of the encoders *)

Lemma templates_end_with_CRLF_witness :
  templated release = true
  /\ release <> pauseTube
  /\ commandFunction release (Js.Num 7)
       {| priority := Js.Num 3; delay := Js.Undefined; ttr := Js.Undefined |}
     = Return (Js.Str ("release 7 3 0" ++ CRLF))
  /\ Js.endsWith ("release 7 3 0" ++ CRLF) CRLF = true.
Proof.
  assert (Hne : release <> pauseTube) by discriminate.
  exact (conj eq_refl (conj Hne (conj eq_refl
    (templates_end_with_CRLF release (Js.Num 7)
       {| priority := Js.Num 3; delay := Js.Undefined; ttr := Js.Undefined |}
       ("release 7 3 0" ++ CRLF) eq_refl Hne eq_refl)))).
Defined.

Lemma one_line_base : exists line, CRLF = line ++ CRLF /\ is_line line.
Proof. now exists "". Qed.

Lemma one_line_cons (c : ascii) (b : string) :
  c <> CR ->
  (exists line, b = line ++ CRLF /\ is_line line) ->
  exists line, String c b = line ++ CRLF /\ is_line line.
Proof.
  intros Hc [line [-> Hl]]. exists (String c line). split; [reflexivity|].
  now apply is_line_cons.
Qed.

Lemma one_line_app (a : string) (c : ascii) (b : string) :
  c <> LF ->
  is_line a ->
  (exists line, String c b = line ++ CRLF /\ is_line line) ->
  exists line, a ++ String c b = line ++ CRLF /\ is_line line.
Proof.
  intros Hc Ha [line [E Hl]]. exists (a ++ line). split.
  - now rewrite E, app_assoc.
  - destruct line as [|d line].
    + now rewrite app_empty_r.
    + injection E as <- _. now apply is_line_app.
Qed.

(** X9: when the texts put into a template hold no terminator, the bytes of
    every command but put and pause-tube are one line and its
    terminator: the only CRLF is the final one. *)
Theorem encoders_emit_one_line
  (c : command) (arg : Js.value) (o : options) (bytes : string) :
  templated c = true ->
  c <> pauseTube ->
  c <> put ->
  is_line (text arg) ->
  is_line (text (Js.or (priority o) zero)) ->
  is_line (text (Js.or (delay o) zero)) ->
  commandFunction c arg o = Return (Js.Str bytes) ->
  exists line,
    bytes = line ++ CRLF /\ is_line line
    /\ Js.indexOf CRLF bytes = Some (String.length line).
Proof.
  intros Ht Hp Hput Harg Hprio Hdelay H.
  assert (E : exists line, bytes = line ++ CRLF /\ is_line line).
  { destruct c; try discriminate Ht; try (now elim Hp); try (now elim Hput);
      cbn [commandFunction] in H; unfold assert in H;
      try (destruct (Js.truthy arg); [|discriminate H]); cbn [bind] in H;
      injection H as <-;
      repeat first [ exact one_line_base
                   | apply one_line_app; [discriminate | assumption |]
                   | apply one_line_cons; [discriminate |] ]. }
  destruct E as [line [-> Hl]]. exists line. repeat split; [exact Hl|].
  change (line ++ CRLF) with (line ++ CRLF ++ ""). now apply indexOf_line.
Qed.

Lemma encoders_emit_one_line_witness :
  templated bury = true
  /\ bury <> pauseTube
  /\ bury <> put
  /\ is_line (text (Js.Str "42"))
  /\ is_line (text (Js.or (priority no_options) zero))
  /\ is_line (text (Js.or (delay no_options) zero))
  /\ commandFunction bury (Js.Str "42") no_options
     = Return (Js.Str ("bury 42 0" ++ CRLF))
  /\ exists line,
       "bury 42 0" ++ CRLF = line ++ CRLF /\ is_line line
       /\ Js.indexOf CRLF ("bury 42 0" ++ CRLF) = Some (String.length line).
Proof.
  assert (H1 : bury <> pauseTube) by discriminate.
  assert (H2 : bury <> put) by discriminate.
  exact (conj eq_refl (conj H1 (conj H2 (conj eq_refl (conj eq_refl
    (conj eq_refl (conj eq_refl
      (encoders_emit_one_line bury (Js.Str "42") no_options
         ("bury 42 0" ++ CRLF) eq_refl H1 H2 eq_refl eq_refl eq_refl
         eq_refl)))))))).
Defined.

(** X10: the frame put builds for a non-empty string payload: a header line
    whose last token is the decimal length of the payload, its
    terminator, the payload as it is, and a terminator.  Reading as many
    bytes as declared after the first terminator gives the payload back,
    whatever the payload holds. *)
Theorem put_frame (payload : string) (o : options) :
  payload <> "" ->
  is_line (text (Js.or (priority o) zero)) ->
  is_line (text (Js.or (delay o) zero)) ->
  is_line (text (Js.or (ttr o) (Js.Num 60))) ->
  exists header,
    commandFunction put (Js.Str payload) o
    = Return (Js.Str (header ++ CRLF ++ payload ++ CRLF))
    /\ is_line header
    /\ Js.endsWith header (" " ++ Js.of_Z (Z.of_nat (String.length payload))) = true
    /\ Js.indexOf CRLF (header ++ CRLF ++ payload ++ CRLF)
       = Some (String.length header)
    /\ String.substring (String.length header + 2) (String.length payload)
         (header ++ CRLF ++ payload ++ CRLF) = payload.
Proof.
  intros Hne Hp Hd Ht.
  set (front := "put " ++ text (Js.or (priority o) zero) ++ " "
                ++ text (Js.or (delay o) zero) ++ " "
                ++ text (Js.or (ttr o) (Js.Num 60))).
  set (count := Js.of_Z (Z.of_nat (String.length payload))).
  assert (Hfront : is_line front).
  { unfold front. cbn [append].
    repeat first [ assumption
                 | apply is_line_app; [discriminate | assumption |]
                 | apply is_line_cons; [discriminate |] ]. }
  assert (Hheader : is_line (front ++ " " ++ count)).
  { apply is_line_app; [discriminate | assumption |].
    apply is_line_cons; [discriminate|]. apply is_line_of_Z. }
  exists (front ++ " " ++ count). repeat split.
  - rewrite (put_string_declares_its_length payload o Hne).
    unfold front, count. now rewrite !app_assoc.
  - exact Hheader.
  - apply endsWith_app.
  - now apply indexOf_line.
  - rewrite <- (app_assoc _ CRLF).
    replace (String.length (front ++ " " ++ count) + 2)
      with (String.length ((front ++ " " ++ count) ++ CRLF))
      by (rewrite (length_app _ CRLF); reflexivity).
    rewrite substring_skip.
    pose proof (substring_0_app payload CRLF) as S.
    unfold Js.substring in S. now rewrite Nat.sub_0_r in S.
Qed.

Lemma put_frame_witness :
  "a" ++ CRLF ++ "b" <> ""
  /\ is_line (text (Js.or (priority no_options) zero))
  /\ is_line (text (Js.or (delay no_options) zero))
  /\ is_line (text (Js.or (ttr no_options) (Js.Num 60)))
  /\ exists header,
       commandFunction put (Js.Str ("a" ++ CRLF ++ "b")) no_options
       = Return (Js.Str (header ++ CRLF ++ ("a" ++ CRLF ++ "b") ++ CRLF))
       /\ is_line header
       /\ Js.endsWith header
            (" " ++ Js.of_Z (Z.of_nat (String.length ("a" ++ CRLF ++ "b")))) = true
       /\ Js.indexOf CRLF (header ++ CRLF ++ ("a" ++ CRLF ++ "b") ++ CRLF)
          = Some (String.length header)
       /\ String.substring (String.length header + 2)
            (String.length ("a" ++ CRLF ++ "b"))
            (header ++ CRLF ++ ("a" ++ CRLF ++ "b") ++ CRLF)
          = "a" ++ CRLF ++ "b".
Proof.
  assert (Hne : "a" ++ CRLF ++ "b" <> "") by discriminate.
  exact (conj Hne (conj eq_refl (conj eq_refl (conj eq_refl
    (put_frame ("a" ++ CRLF ++ "b") no_options Hne eq_refl eq_refl eq_refl))))).
Defined.

(** * Further properties of the handlers *)

(** X11: a handler returns only for a response that starts with its success
    token and with none of the error codes, shared or its own; the
    handlers of the replies without argument return only for the token
    itself, and return nothing. *)
Theorem success_is_sound (c : command) (t line : string) (r : result) :
  success_token c = Some t ->
  responseFunction c line = Return r ->
  Js.startsWith line t = true
  /\ (forall e, In e (shared_errors ++ additionalErrors c) ->
                Js.startsWith line e = false)
  /\ (bare_reply c = true -> line = t /\ r = RUndefined).
Proof.
  intros Ht H.
  destruct c; try discriminate Ht; injection Ht as <-;
    cbv beta iota delta
      [responseFunction expect_exactly expect_token reserveResponseHandler] in H;
    cbn [additionalErrors bare_reply];
    match type of H with
    | context [validateAgainstErrors line ?extra] =>
        destruct (validateAgainstErrors line extra) as [[]|] eqn:V;
          [|discriminate H];
        pose proof (validateAgainstErrors_passed _ _ V) as Hv
    end;
    cbn [bind] in H;
    match type of H with
    | context [String.eqb line ?t] =>
        destruct (String.eqb_spec line t) as [->|]; [|discriminate H];
        injection H as <-;
        split; [apply prefix_refl | split; [exact Hv | now split]]
    | context [Js.startsWith line ?t] =>
        destruct (Js.startsWith line t); [|discriminate H];
        split; [reflexivity | split; [exact Hv | discriminate]]
    end.
Qed.

Lemma success_is_sound_witness :
  success_token use = Some USING
  /\ responseFunction use "USING jobs" = Return (RString "jobs")
  /\ Js.startsWith "USING jobs" USING = true
  /\ (forall e, In e (shared_errors ++ additionalErrors use) ->
                Js.startsWith "USING jobs" e = false)
  /\ (bare_reply use = true -> "USING jobs" = USING /\ RString "jobs" = RUndefined).
Proof.
  exact (conj eq_refl (conj eq_refl
    (success_is_sound use USING "USING jobs" (RString "jobs") eq_refl eq_refl))).
Defined.

(** X12: the replies without argument: the token alone on the first line
    resolves the call with no value, however the bytes are cut. *)
Theorem bare_reply_resolves
  (c : command) (t rest : string) (chunks : list string) :
  bare_reply c = true ->
  success_token c = Some t ->
  join chunks = t ++ CRLF ++ rest ->
  respond c chunks = resolved RUndefined.
Proof.
  intros Hb Ht Hjoin.
  destruct c; try discriminate Hb; injection Ht as <-;
    match goal with
    | Hj : join chunks = ?t ++ _ |- respond ?c _ = _ =>
        change (resolved RUndefined) with (Some (settled (responseFunction c t)));
        apply (feed_first_line _ chunks "" t rest eq_refl eq_refl Hj);
        intros k; discriminate
    end.
Qed.

Lemma bare_reply_resolves_witness :
  bare_reply kickJob = true
  /\ success_token kickJob = Some KICKED
  /\ join ["KICK"; "ED" ++ CRLF] = KICKED ++ CRLF ++ ""
  /\ respond kickJob ["KICK"; "ED" ++ CRLF] = resolved RUndefined.
Proof.
  exact (conj eq_refl (conj eq_refl (conj eq_refl
    (bare_reply_resolves kickJob KICKED "" ["KICK"; "ED" ++ CRLF]
       eq_refl eq_refl eq_refl)))).
Defined.

(** X13: the replies with an argument: the call resolves with the text
    between the first space of the first line and the next one, however
    the bytes are cut. *)
Theorem token_reply_resolves
  (c : command) (t s rest : string) (chunks : list string) :
  token_reply c = true ->
  success_token c = Some t ->
  is_line s ->
  join chunks = (t ++ " " ++ s) ++ CRLF ++ rest ->
  respond c chunks = resolved (RString (leading_token s)).
Proof.
  intros Hc Ht Hs Hjoin.
  assert (Hr : responseFunction c (t ++ " " ++ s)
               = Return (RString (leading_token s))).
  { change (t ++ " " ++ s) with (t ++ String " " s).
    destruct c; try discriminate Hc; injection Ht as <-;
      cbv beta iota delta [responseFunction expect_token return_token];
      rewrite second_token_after by reflexivity; reflexivity. }
  assert (Hline : is_line (t ++ " " ++ s)).
  { apply is_line_app; [discriminate | |].
    - destruct c; try discriminate Hc; injection Ht as <-; reflexivity.
    - apply is_line_cons; [discriminate | exact Hs]. }
  unfold respond, resolved. rewrite <- Hr.
  apply (feed_first_line _ chunks "" _ rest eq_refl Hline Hjoin).
  intros k. rewrite Hr. discriminate.
Qed.

Lemma token_reply_resolves_witness :
  token_reply put = true
  /\ success_token put = Some INSERTED
  /\ is_line "42"
  /\ join ["INSERTED "; "4"; "2" ++ CRLF] = (INSERTED ++ " " ++ "42") ++ CRLF ++ ""
  /\ respond put ["INSERTED "; "4"; "2" ++ CRLF]
     = resolved (RString (leading_token "42")).
Proof.
  exact (conj eq_refl (conj eq_refl (conj eq_refl (conj eq_refl
    (token_reply_resolves put INSERTED "42" "" ["INSERTED "; "4"; "2" ++ CRLF]
       eq_refl eq_refl eq_refl eq_refl))))).
Defined.

(** X14: the replies with a payload: when the chunk that completes the
    status line also brings the payload and its terminator, the call
    resolves with the id read off the status line and the payload, the
    payload being free to look like an error code. *)
Theorem job_reply_coalesced
  (c : command) (t s payload rest : string) (pre : list string) (last : string) :
  job_reply c = true ->
  success_token c = Some t ->
  is_line s ->
  is_line payload ->
  is_line (join pre) ->
  join pre ++ last = (t ++ " " ++ s) ++ CRLF ++ payload ++ CRLF ++ rest ->
  respond c (pre ++ [last]) = resolved (RJob (Some (leading_token s)) payload).
Proof.
  intros Hc Ht Hs Hpay Hpre Hjoin.
  assert (Hr : responseFunction c (t ++ " " ++ s)
               = Return (RFunction (KJob (Some (leading_token s))))).
  { change (t ++ " " ++ s) with (t ++ String " " s).
    destruct c; try discriminate Hc; injection Ht as <-;
      cbv beta iota delta [responseFunction reserveResponseHandler];
      rewrite second_token_after by reflexivity; reflexivity. }
  assert (Hline : is_line (t ++ " " ++ s)).
  { apply is_line_app; [discriminate | |].
    - destruct c; try discriminate Hc; injection Ht as <-; reflexivity.
    - apply is_line_cons; [discriminate | exact Hs]. }
  exact (feed_coalesced _ pre last _ payload rest _ Hpre Hline Hpay Hr Hjoin).
Qed.

Lemma job_reply_coalesced_witness :
  job_reply peek = true
  /\ success_token peek = Some FOUND
  /\ is_line "42 9"
  /\ is_line "TIMED_OUT"
  /\ is_line (join ["FOUND 4"])
  /\ join ["FOUND 4"] ++ ("2 9" ++ CRLF ++ "TIMED_OUT" ++ CRLF)
     = (FOUND ++ " " ++ "42 9") ++ CRLF ++ "TIMED_OUT" ++ CRLF ++ ""
  /\ respond peek (["FOUND 4"] ++ ["2 9" ++ CRLF ++ "TIMED_OUT" ++ CRLF])
     = resolved (RJob (Some (leading_token "42 9")) "TIMED_OUT").
Proof.
  exact (conj eq_refl (conj eq_refl (conj eq_refl (conj eq_refl (conj eq_refl
    (conj eq_refl
      (job_reply_coalesced peek FOUND "42 9" "TIMED_OUT" "" ["FOUND 4"]
         ("2 9" ++ CRLF ++ "TIMED_OUT" ++ CRLF)
         eq_refl eq_refl eq_refl eq_refl eq_refl eq_refl))))))).
Defined.

(** X15: a first line whose status token is one of the errors the command
    declares for itself rejects the call with an error that carries the
    line, however the bytes are cut. *)
Theorem declared_errors_reject
  (c : command) (line rest : string) (chunks : list string) :
  In (leading_token line) (additionalErrors c) ->
  is_line line ->
  join chunks = line ++ CRLF ++ rest ->
  respond c chunks = rejected (ProtocolError line).
Proof.
  intros Hin Hline Hjoin.
  assert (Hr : responseFunction c line = Throw (ProtocolError line)).
  { destruct c; cbn [additionalErrors] in Hin; try (now elim Hin);
      cbv beta iota delta
        [responseFunction expect_exactly expect_token reserveResponseHandler];
      now rewrite (validateAgainstErrors_additional _ _ Hin). }
  unfold respond, rejected. rewrite <- Hr.
  apply (feed_first_line _ chunks "" line rest eq_refl Hline Hjoin).
  intros k. rewrite Hr. discriminate.
Qed.

Lemma declared_errors_reject_witness :
  In (leading_token "NOT_IGNORED") (additionalErrors ignore)
  /\ is_line "NOT_IGNORED"
  /\ join ["NOT_IGNORED"; CRLF] = "NOT_IGNORED" ++ CRLF ++ ""
  /\ respond ignore ["NOT_IGNORED"; CRLF] = rejected (ProtocolError "NOT_IGNORED").
Proof.
  assert (Hin : In (leading_token "NOT_IGNORED") (additionalErrors ignore))
    by (vm_compute; tauto).
  exact (conj Hin (conj eq_refl (conj eq_refl
    (declared_errors_reject ignore "NOT_IGNORED" "" ["NOT_IGNORED"; CRLF]
       Hin eq_refl eq_refl)))).
Defined.

(** X16: a first line that starts with no error code, shared or declared,
    and is not what the handler looks for (the token itself for the
    replies without argument, the token as a prefix for the others)
    rejects the call with the unexpected-response error that carries the
    line. *)
Theorem unrecognised_reply_is_unexpected
  (c : command) (t line rest : string) (chunks : list string) :
  success_token c = Some t ->
  (forall e, In e (shared_errors ++ additionalErrors c) ->
             Js.startsWith line e = false) ->
  (if bare_reply c then line <> t else Js.startsWith line t = false) ->
  is_line line ->
  join chunks = line ++ CRLF ++ rest ->
  respond c chunks = rejected (UnexpectedResponse line).
Proof.
  intros Ht Herr Hno Hline Hjoin.
  assert (Hr : responseFunction c line = Throw (UnexpectedResponse line)).
  { destruct c; try discriminate Ht; injection Ht as <-;
      cbn [additionalErrors bare_reply] in Herr, Hno;
      cbv beta iota delta
        [responseFunction expect_exactly expect_token reserveResponseHandler];
      rewrite (validateAgainstErrors_passes _ _ Herr); cbn [bind];
      first [ rewrite Hno; reflexivity
            | apply String.eqb_neq in Hno; rewrite Hno; reflexivity ]. }
  unfold respond, rejected. rewrite <- Hr.
  apply (feed_first_line _ chunks "" line rest eq_refl Hline Hjoin).
  intros k. rewrite Hr. discriminate.
Qed.

Lemma unrecognised_reply_is_unexpected_witness :
  success_token delete = Some DELETED
  /\ (forall e, In e (shared_errors ++ additionalErrors delete) ->
                Js.startsWith "DELETED 42" e = false)
  /\ (if bare_reply delete then "DELETED 42" <> DELETED
      else Js.startsWith "DELETED 42" DELETED = false)
  /\ is_line "DELETED 42"
  /\ join ["DELETED 42" ++ CRLF] = "DELETED 42" ++ CRLF ++ ""
  /\ respond delete ["DELETED 42" ++ CRLF]
     = rejected (UnexpectedResponse "DELETED 42").
Proof.
  assert (Herr : forall e, In e (shared_errors ++ additionalErrors delete) ->
                           Js.startsWith "DELETED 42" e = false).
  { intros e Hin. vm_compute in Hin.
    repeat (destruct Hin as [<-|Hin]; [reflexivity|]). now elim Hin. }
  assert (Hno : if bare_reply delete then "DELETED 42" <> DELETED
                else Js.startsWith "DELETED 42" DELETED = false)
    by (cbn; discriminate).
  exact (conj eq_refl (conj Herr (conj Hno (conj eq_refl (conj eq_refl
    (unrecognised_reply_is_unexpected delete DELETED "DELETED 42" ""
       ["DELETED 42" ++ CRLF] eq_refl Herr Hno eq_refl eq_refl)))))).
Defined.

(** X17: the raw command: a first line that starts with no shared error code
    resolves the call with that line as it is, however the bytes are
    cut. *)
Theorem raw_command_resolves_with_first_line
  (line rest : string) (chunks : list string) :
  (forall e, In e shared_errors -> Js.startsWith line e = false) ->
  is_line line ->
  join chunks = line ++ CRLF ++ rest ->
  respond executeCommand chunks = resolved (RString line).
Proof.
  intros Herr Hline Hjoin.
  assert (Hr : responseFunction executeCommand line = Return (RString line)).
  { cbv beta iota delta [responseFunction].
    now rewrite (validateAgainstErrors_passes line [] Herr). }
  unfold respond, resolved. rewrite <- Hr.
  apply (feed_first_line _ chunks "" line rest eq_refl Hline Hjoin).
  intros k. rewrite Hr. discriminate.
Qed.

Lemma raw_command_resolves_with_first_line_witness :
  (forall e, In e shared_errors -> Js.startsWith "OK 12" e = false)
  /\ is_line "OK 12"
  /\ join ["OK"; " 12" ++ CRLF ++ "---"] = "OK 12" ++ CRLF ++ "---"
  /\ respond executeCommand ["OK"; " 12" ++ CRLF ++ "---"]
     = resolved (RString "OK 12").
Proof.
  assert (Herr : forall e, In e shared_errors -> Js.startsWith "OK 12" e = false).
  { intros e Hin. vm_compute in Hin.
    repeat (destruct Hin as [<-|Hin]; [reflexivity|]). now elim Hin. }
  exact (conj Herr (conj eq_refl (conj eq_refl
    (raw_command_resolves_with_first_line "OK 12" "---"
       ["OK"; " 12" ++ CRLF ++ "---"] Herr eq_refl eq_refl)))).
Defined.

(** X18: the raw two-part command: when the chunk that completes the first
    line also brings the next line, the call resolves with that next
    line as it is. *)
Theorem raw_multipart_coalesced
  (line payload rest : string) (pre : list string) (last : string) :
  (forall e, In e shared_errors -> Js.startsWith line e = false) ->
  is_line line ->
  is_line payload ->
  is_line (join pre) ->
  join pre ++ last = line ++ CRLF ++ payload ++ CRLF ++ rest ->
  respond executeMultiPartCommand (pre ++ [last]) = resolved (RString payload).
Proof.
  intros Herr Hline Hpay Hpre Hjoin.
  assert (Hr : responseFunction executeMultiPartCommand line
               = Return (RFunction KDeferred)).
  { cbv beta iota delta [responseFunction].
    now rewrite (validateAgainstErrors_passes line [] Herr). }
  exact (feed_coalesced _ pre last line payload rest _ Hpre Hline Hpay Hr Hjoin).
Qed.

Lemma raw_multipart_coalesced_witness :
  (forall e, In e shared_errors -> Js.startsWith "OK 7" e = false)
  /\ is_line "OK 7"
  /\ is_line "---"
  /\ is_line (join ["OK"; " 7"])
  /\ join ["OK"; " 7"] ++ (CRLF ++ "---" ++ CRLF ++ "a: 1")
     = "OK 7" ++ CRLF ++ "---" ++ CRLF ++ "a: 1"
  /\ respond executeMultiPartCommand
       (["OK"; " 7"] ++ [CRLF ++ "---" ++ CRLF ++ "a: 1"])
     = resolved (RString "---").
Proof.
  assert (Herr : forall e, In e shared_errors -> Js.startsWith "OK 7" e = false).
  { intros e Hin. vm_compute in Hin.
    repeat (destruct Hin as [<-|Hin]; [reflexivity|]). now elim Hin. }
  exact (conj Herr (conj eq_refl (conj eq_refl (conj eq_refl (conj eq_refl
    (raw_multipart_coalesced "OK 7" "---" "a: 1" ["OK"; " 7"]
       (CRLF ++ "---" ++ CRLF ++ "a: 1") Herr eq_refl eq_refl eq_refl
       eq_refl)))))).
Defined.

(** X4: as long as the bytes received hold no terminator, the exchange stays
    pending and its buffer holds every one of them, in order. *)
Theorem unfinished_line_is_kept (c : command) (chunks : list string) :
  is_line (join chunks) ->
  respond c chunks = Some (awaiting (join chunks)).
Proof.
  intros H. exact (feed_pending (responseFunction c) chunks "" H).
Qed.

Lemma unfinished_line_is_kept_witness :
  is_line (join ["RESER"; "VED 4"; "2 5"; String CR ""])
  /\ respond reserve ["RESER"; "VED 4"; "2 5"; String CR ""]
     = Some (awaiting (join ["RESER"; "VED 4"; "2 5"; String CR ""])).
Proof.
  exact (conj eq_refl
    (unfinished_line_is_kept reserve ["RESER"; "VED 4"; "2 5"; String CR ""]
       eq_refl)).
Defined.
